(** * yellfront-oauth: the pending-state cache and the HTTP handlers of server.js

    A shallow embedding of [src/server.js].  The shared [pendingStates] Map is
    threaded explicitly through the handlers; everything the handlers obtain
    from outside the process ([Date.now()], [uuidv4()], [process.env], the
    Google client) is passed in as an environment record, one per handler run.
    The handlers are modelled from the point where Express calls them: the
    request has passed [helmet], the two rate limiters and the body parser. *)

From Stdlib Require Import ZArith Floats.
From stdpp Require Import gmap strings list fin_maps.

Set Warnings "-register-all".

Local Open Scope Z_scope.
Local Open Scope string_scope.

(** ** JavaScript values that reach the handlers *)

(** What the query-string parser puts in [req.query]: a string, an array
    (a repeated parameter) or a nested object (bracket syntax).  A parameter
    that is not in the query is [undefined], here [None]. *)
Inductive qval :=
  | QStr (s : string)
  | QArr (l : list qval)
  | QObj (l : list (string * qval)).

(** What [express.json()] puts in [req.body], and what travels in JSON
    response bodies.  Numbers are IEEE doubles, as in JavaScript. *)
Inductive json :=
  | JNull
  | JBool (b : bool)
  | JNum (x : float)
  | JStr (s : string)
  | JArr (l : list json)
  | JObj (l : list (string * json)).

(** ToBoolean on a possibly-undefined query value: only [undefined] and the
    empty string are falsy; arrays and objects are always truthy. *)
Definition truthy (v : option qval) : bool :=
  match v with
  | None => false
  | Some (QStr s) => negb (String.eqb s "")
  | Some _ => true
  end.

(** ToBoolean on a possibly-undefined JSON value. *)
Definition jtruthy (v : option json) : bool :=
  match v with
  | None => false
  | Some JNull => false
  | Some (JBool b) => b
  | Some (JNum x) => negb (PrimFloat.eqb x 0 || PrimFloat.is_nan x)
  | Some (JStr s) => negb (String.eqb s "")
  | Some _ => true
  end.

(** A JavaScript call that either returns or throws an [Error] with a message. *)
Inductive result (A : Type) :=
  | Ok (a : A)
  | Throw (message : string).
Arguments Ok {A} a.
Arguments Throw {A} message.

(** Whether a parsed object has an own property [k].  Express hands the
    query to the parser with [allowPrototypes], so a key such as [toString]
    is kept and shadows the inherited method. *)
Definition has_own (k : string) (props : list (string * qval)) : bool :=
  existsb (fun p => String.eqb p.1 k) props.

(** ToString, as a template literal applies it.  An array joins the strings
    of its elements with commas, left to right.  A plain object prints as
    [[object Object]] through the inherited [toString]; when it has an own
    [toString] property, that property is a parsed value and not callable,
    [valueOf] gives back the object, and the conversion throws a TypeError. *)
Fixpoint toString (v : qval) : result string :=
  match v with
  | QStr s => Ok s
  | QArr l =>
      (fix join (l : list qval) : result string :=
         match l with
         | [] => Ok ""
         | [x] => toString x
         | x :: rest =>
             match toString x with
             | Throw msg => Throw msg
             | Ok sx =>
                 match join rest with
                 | Throw msg => Throw msg
                 | Ok sr => Ok (sx ++ "," ++ sr)
                 end
             end
         end) l
  | QObj props =>
      if has_own "toString" props
      then Throw "Cannot convert object to primitive value"
      else Ok "[object Object]"
  end.

(** [String.prototype.includes]. *)
Fixpoint str_includes (needle hay : string) : bool :=
  String.prefix needle hay ||
  match hay with
  | EmptyString => false
  | String _ rest => str_includes needle rest
  end.

(** [returnUrl.includes('?')]: a substring test on a string, an element test
    (SameValueZero) on an array, and a TypeError on a plain object, which has
    no callable [includes]. *)
Definition includes_qmark (v : qval) : result bool :=
  match v with
  | QStr s => Ok (str_includes "?" s)
  | QArr l =>
      Ok (existsb (fun x => match x with QStr s => String.eqb s "?" | _ => false end) l)
  | QObj _ => Throw "returnUrl.includes is not a function"
  end.

(** ** The pending-state cache *)

(** The object stored under a state token (server.js, lines 77-81).  [created]
    is a [Date.now()] reading: integer milliseconds. *)
Record PendingState := mkPending {
  created : Z;
  returnUrl : qval;
  ip : string;
}.

(** [pendingStates]: a Map whose keys are only ever [uuidv4()] strings. *)
Abbreviation Cache := (gmap string PendingState).

(** [10 * 60 * 1000], the expiry age of line 43, and [5 * 60 * 1000], the
    period of the timer. *)
Definition EXPIRY_MS : Z := 10 * 60 * 1000.
Definition SWEEP_PERIOD_MS : Z := 5 * 60 * 1000.

(** [pendingStates.get(state)] with a key taken from the query.  An array or
    object key was freshly allocated by the parser, so it is no key of the Map. *)
Definition Map_get (state : qval) (m : Cache) : option PendingState :=
  match state with
  | QStr t => m !! t
  | _ => None
  end.

(** [pendingStates.delete(state)]. *)
Definition Map_delete (state : qval) (m : Cache) : Cache :=
  match state with
  | QStr t => delete t m
  | _ => m
  end.

(** begin: lines 74 and 77-81.  [token] is the value [uuidv4()] returned and
    [now] the value [Date.now()] returned.  [Map.prototype.set] overwrites. *)
Definition begin (token : string) (now : Z) (url : qval) (addr : string)
    (m : Cache) : string * Cache :=
  (token, <[token := mkPending now url addr]> m).

(** consume: lines 111-118, the lookup, the absence test and the delete.
    A stored value is an object, hence truthy: [!pendingState] holds exactly
    when the lookup gave [undefined]. *)
Definition consume (state : qval) (m : Cache) : option PendingState * Cache :=
  match Map_get state m with
  | None => (None, m)
  | Some ps => (Some ps, Map_delete state m)
  end.

(** The test of line 43. *)
Definition expired (now : Z) (data : PendingState) : bool :=
  now - created data >? EXPIRY_MS.

(** The body of the loop of lines 42-46, acting on the Map being swept. *)
Definition sweep_step (now : Z) (state : string) (data : PendingState)
    (m : Cache) : Cache :=
  if expired now data then delete state m else m.

(** sweep: the timer callback of lines 40-47.  The loop visits the entries of
    the Map and deletes from that same Map. *)
Definition sweep (now : Z) (m : Cache) : Cache :=
  map_fold (sweep_step now) m m.

(** The same loop run over an explicit sequence of entries, first to last.
    A JavaScript Map yields its entries in insertion order, which the finite
    map forgets; [sweep_in_any_order] shows that the order is immaterial. *)
Definition sweep_entries (now : Z) (entries : list (string * PendingState))
    (m : Cache) : Cache :=
  foldl (fun acc kd => sweep_step now kd.1 kd.2 acc) m entries.

(** ** The outside world of one handler run *)

(** The argument of [oauth2Client.generateAuthUrl] (lines 84-89). *)
Record AuthUrlOpts := mkOpts {
  access_type : string;
  scope : list string;
  state : string;
  prompt : string;
}.

(** The [tokens] object resolved by [getToken], the [data] object resolved by
    [userinfo.get] and the [credentials] object resolved by
    [refreshAccessToken]; a property may be [undefined]. *)
Record Tokens := mkTokens {
  access_token : option json;
  refresh_token : option json;
  expiry_date : option json;
}.

Record UserInfo := mkUserInfo {
  email : option json;
  name : option json;
  picture : option json;
}.

Record Credentials := mkCredentials {
  cred_access_token : option json;
  cred_expiry_date : option json;
}.

(** Everything a handler run reads from outside the process: the clock, the
    uuid generator, the environment variable, the Google client and the
    [encodeURIComponent] builtin (which throws on a malformed string). *)
Record Env := mkEnv {
  Date_now : Z;
  uuidv4 : string;
  DEFAULT_RETURN_URL : option string;
  generateAuthUrl : AuthUrlOpts -> string;
  getToken : qval -> result Tokens;
  userinfo_get : Tokens -> result UserInfo;
  refreshAccessToken : json -> result Credentials;
  encodeURIComponent : option json -> result string;
}.

(** [req.body] after [express.json()]: the strict parser lets through only
    an object or an array.  When there was no JSON body to parse, the parser
    of Express 4 leaves an empty object and the parser of Express 5 leaves
    [req.body] undefined. *)
Inductive ReqBody :=
  | BObject (props : list (string * json))
  | BArray (items : list json)
  | BUndefined.

(** The parts of an Express request the handlers read. *)
Record Request := mkRequest {
  query : gmap string qval;
  body : ReqBody;
  req_ip : string;
}.

(** [res.status(s).json(payload)] and [res.redirect(location)], which answers
    302; [location] is the string handed to [res.redirect].  [RUncaught]: the
    handler threw outside its [try] (for an [async] handler: its promise was
    rejected) and sent nothing itself.  What the client then gets is up to
    Express: Express 5 passes the error to the error middleware of lines
    197-200, Express 4 leaves the rejection of an [async] handler unanswered. *)
Inductive Response :=
  | RJson (status : Z) (payload : json)
  | RRedirect (status : Z) (location : string)
  | RUncaught (message : string).

(** Lines written to the console. *)
Inductive LogEntry :=
  | ErrOAuth (error : qval)
  | WarnMissing (addr : string)
  | WarnInvalidState (st : qval) (addr : string)
  | LogSuccess (mail : option json) (hasRefreshToken : bool)
  | ErrExchange (message : string)
  | ErrRefresh (message : string)
  | ErrUnhandled (message : string).

(** What a handler run leaves behind: the Map, the response, the console. *)
Definition Outcome : Type := Cache * Response * list LogEntry.

Definition SCOPES : list string :=
  [ "https://www.googleapis.com/auth/gmail.modify";
    "https://www.googleapis.com/auth/calendar";
    "https://www.googleapis.com/auth/contacts.readonly";
    "https://www.googleapis.com/auth/userinfo.email";
    "https://www.googleapis.com/auth/userinfo.profile" ].

(** An object literal as [res.json] serialises it: a property whose value is
    [undefined] is left out. *)
Definition obj (props : list (string * option json)) : json :=
  JObj (omap (fun p => pair (fst p) <$> snd p) props).

Definition error_body (message : string) : json :=
  obj [("error", Some (JStr message))].

(** Reading a named property of [req.body]: an own property of the object
    ([props] lists them, each key once), and [undefined] on an array.  An
    undefined body has no properties to read: the handler throws before it
    gets that far. *)
Fixpoint assoc (k : string) (l : list (string * json)) : option json :=
  match l with
  | [] => None
  | (k', v) :: rest => if String.eqb k k' then Some v else assoc k rest
  end.

Definition body_prop (k : string) (b : ReqBody) : option json :=
  match b with
  | BObject props => assoc k props
  | BArray _ => None
  | BUndefined => None
  end.

(** [req.query.return_url || process.env.DEFAULT_RETURN_URL || '/'] (line 75). *)
Definition default_return_url (e : Env) : qval :=
  match DEFAULT_RETURN_URL e with
  | Some s => if String.eqb s "" then QStr "/" else QStr s
  | None => QStr "/"
  end.

Definition pick_return_url (e : Env) (req : Request) : qval :=
  match query req !! "return_url" with
  | Some v => if truthy (Some v) then v else default_return_url e
  | None => default_return_url e
  end.

(** [pendingState.returnUrl || '/'] (line 157). *)
Definition or_slash (v : qval) : qval :=
  if truthy (Some v) then v else QStr "/".

(** ** The handlers *)

(** GET /precombopulator/auth (lines 73-92). *)
Definition auth_handler (e : Env) (m : Cache) (req : Request) : Outcome :=
  let '(token, m') :=
    begin (uuidv4 e) (Date_now e) (pick_return_url e req) (req_ip req) m in
  let authUrl := generateAuthUrl e (mkOpts "offline" SCOPES token "consent") in
  (m', RRedirect 302 authUrl, []).

(** The [try] block of the callback (lines 120-164), entered after the state
    was removed.  Any throw inside it lands in the [catch]. *)
Definition exchange (e : Env) (req : Request) (code : qval)
    (pendingState : PendingState) : Response * list LogEntry :=
  let failed msg :=
    (RJson 500 (error_body "Failed to exchange authorization code"),
     [ErrExchange msg]) in
  match getToken e code with
  | Throw msg => failed msg
  | Ok tokens =>
      match userinfo_get e tokens with
      | Throw msg => failed msg
      | Ok userInfo =>
          let ok := LogSuccess (email userInfo) (jtruthy (refresh_token tokens)) in
          match query req !! "format" with
          | Some (QStr "json") =>
              (RJson 200 (obj
                 [("success", Some (JBool true));
                  ("user", Some (obj [("email", email userInfo);
                                      ("name", name userInfo);
                                      ("picture", picture userInfo)]));
                  ("tokens", Some (obj [("access_token", access_token tokens);
                                        ("refresh_token", refresh_token tokens);
                                        ("expiry_date", expiry_date tokens)]))]),
               [ok])
          | _ =>
              let url := or_slash (returnUrl pendingState) in
              match includes_qmark url with
              | Throw msg => let '(r, l) := failed msg in (r, ok :: l)
              | Ok q =>
                  let separator := if q then "&" else "?" in
                  match toString url with
                  | Throw msg => let '(r, l) := failed msg in (r, ok :: l)
                  | Ok base =>
                      match encodeURIComponent e (email userInfo) with
                      | Throw msg => let '(r, l) := failed msg in (r, ok :: l)
                      | Ok mail =>
                          (RRedirect 302
                             (base ++ separator ++ "auth=success&email=" ++ mail),
                           [ok])
                      end
                  end
              end
          end
      end
  end.

(** GET /precombopulator/yellfront (lines 95-165).  The tests [if (error)]
    and [if (!code || !state)] are truthiness tests; [as_truthy] keeps a value
    that passes.  In the error branch the console line is written first and
    the template literal of line 101 then converts [error] to a string,
    outside any [try]: when the conversion throws, no response is sent.  The
    Map is read and written before the first [await], so no other handler
    runs between the lookup and the delete. *)
Definition as_truthy (v : option qval) : option qval :=
  if truthy v then v else None.

Definition callback_handler (e : Env) (m : Cache) (req : Request) : Outcome :=
  let code := query req !! "code" in
  let st := query req !! "state" in
  let error := query req !! "error" in
  match as_truthy error with
  | Some err =>
      (m,
       match toString err with
       | Ok text => RJson 400 (error_body ("Google OAuth error: " ++ text))
       | Throw msg => RUncaught msg
       end,
       [ErrOAuth err])
  | None =>
      match as_truthy code, as_truthy st with
      | Some code, Some st =>
          match consume st m with
          | (None, _) =>
              (m, RJson 400 (error_body "Invalid or expired state. Please try again."),
               [WarnInvalidState st (req_ip req)])
          | (Some pendingState, m') =>
              let '(r, l) := exchange e req code pendingState in (m', r, l)
          end
      | _, _ =>
          (m, RJson 400 (error_body "Missing required parameters"),
           [WarnMissing (req_ip req)])
      end
  end.

(** POST /precombopulator/refresh (lines 168-189).  The destructuring of
    line 169 is outside the [try]: on an undefined body it throws a TypeError
    and the handler sends nothing. *)
Definition refresh_handler (e : Env) (m : Cache) (req : Request) : Outcome :=
  match body req with
  | BUndefined =>
      (m, RUncaught "Cannot destructure property 'refresh_token' of 'req.body' as it is undefined.",
       [])
  | _ =>
      match body_prop "refresh_token" (body req) with
      | Some tok =>
          if jtruthy (Some tok) then
            match refreshAccessToken e tok with
            | Ok credentials =>
                (m, RJson 200 (obj [("access_token", cred_access_token credentials);
                                    ("expiry_date", cred_expiry_date credentials)]), [])
            | Throw msg =>
                (m, RJson 401 (error_body "Failed to refresh token"), [ErrRefresh msg])
            end
          else (m, RJson 400 (error_body "Missing refresh_token"), [])
      | None => (m, RJson 400 (error_body "Missing refresh_token"), [])
      end
  end.

(** The error middleware of lines 196-200, for an error that Express hands
    to it. *)
Definition error_middleware (message : string) : Response * list LogEntry :=
  (RJson 500 (error_body "Internal server error"), [ErrUnhandled message]).

(** ** The server as a transition system *)

(** What can happen to the process: a request reaches one of the three
    handlers, or the five-minute timer fires and reads the clock. *)
Inductive Event :=
  | EvAuth (e : Env) (req : Request)
  | EvCallback (e : Env) (req : Request)
  | EvRefresh (e : Env) (req : Request)
  | EvSweep (now : Z).

Definition step (m : Cache) (ev : Event) : Cache :=
  match ev with
  | EvAuth e req => (auth_handler e m req).1.1
  | EvCallback e req => (callback_handler e m req).1.1
  | EvRefresh e req => (refresh_handler e m req).1.1
  | EvSweep now => sweep now m
  end.

(** The Map after a history of events, starting from [new Map()]. *)
Definition run (evs : list Event) : Cache := foldl step ∅ evs.

(** The tokens [uuidv4()] handed out along a history, oldest first. *)
Definition issued (evs : list Event) : list string :=
  omap (fun ev => match ev with EvAuth e _ => Some (uuidv4 e) | _ => None end) evs.

(** The three ways in which a token can be missing from the Map. *)
Inductive Absent (t : string) : Cache -> Prop :=
  | NeverIssued (evs : list Event) :
      t ∉ issued evs -> Absent t (run evs)
  | AlreadyConsumed (m : Cache) :
      Absent t (consume (QStr t) m).2
  | SweptAway (now : Z) (m : Cache) (d : PendingState) :
      m !! t = Some d -> now - created d > EXPIRY_MS -> Absent t (sweep now m).

(** ** Concrete data used to exercise the statements *)

Definition sample_opts_url (o : AuthUrlOpts) : string :=
  "https://accounts.google.com/o/oauth2/v2/auth?state=" ++ state o.

(** A world in which Google rejects every code and every refresh token. *)
Definition rejecting_env : Env :=
  mkEnv 660000 "T2" (Some "https://flut.live/dashboard") sample_opts_url
    (fun _ => Throw "invalid_grant")
    (fun _ => Throw "Invalid Credentials")
    (fun _ => Throw "invalid_grant")
    (fun _ => Ok "user%40example.com").

(** A world in which Google accepts. *)
Definition accepting_env : Env :=
  mkEnv 1000 "T1" None sample_opts_url
    (fun _ => Ok (mkTokens (Some (JStr "at")) (Some (JStr "rt")) None))
    (fun _ => Ok (mkUserInfo (Some (JStr "user@example.com")) None None))
    (fun _ => Ok (mkCredentials (Some (JStr "at2")) (Some (JStr "soon"))))
    (fun _ => Ok "user%40example.com").

Definition sample_record : PendingState :=
  mkPending 0 (QStr "https://app.example/dash") "1.2.3.4".

Definition sample_cache : Cache := {[ "T" := sample_record ]}.

Definition request_of (q : list (string * qval)) (b : ReqBody) : Request :=
  mkRequest (list_to_map q) b "1.2.3.4".

Definition no_body : ReqBody := BObject [].

(** ** Notions used to state what the handlers do and never do *)

(** The status the handler answered with, if it answered. *)
Definition status_of (r : Response) : option Z :=
  match r with
  | RJson s _ => Some s
  | RRedirect s _ => Some s
  | RUncaught _ => None
  end.

(** The Map with every creation time rewritten; tokens, return URLs and
    addresses stay. *)
Definition redate (f : PendingState -> Z) (m : Cache) : Cache :=
  (fun ps => mkPending (f ps) (returnUrl ps) (ip ps)) <$> m.

(** The same world with another clock reading. *)
Definition set_clock (now : Z) (e : Env) : Env :=
  mkEnv now (uuidv4 e) (DEFAULT_RETURN_URL e) (generateAuthUrl e) (getToken e)
    (userinfo_get e) (refreshAccessToken e) (encodeURIComponent e).

(** The record the auth handler writes for a request. *)
Definition record_of (e : Env) (req : Request) : PendingState :=
  mkPending (Date_now e) (pick_return_url e req) (req_ip req).

(** A world in which the refreshed credentials come without an expiry. *)
Definition partial_env : Env :=
  mkEnv 3000 "T4" None sample_opts_url
    (fun _ => Throw "invalid_grant")
    (fun _ => Throw "Invalid Credentials")
    (fun _ => Ok (mkCredentials (Some (JStr "at2")) None))
    (fun _ => Ok "user%40example.com").

(** A world in which the code is exchanged but the profile request fails. *)
Definition half_env : Env :=
  mkEnv 2000 "T3" None sample_opts_url
    (fun _ => Ok (mkTokens (Some (JStr "at")) (Some (JStr "rt")) None))
    (fun _ => Throw "Request failed with status code 503")
    (fun _ => Throw "invalid_grant")
    (fun _ => Ok "user%40example.com").

Definition two_cache : Cache :=
  <[ "A" := mkPending 0 (QStr "/a") "1.2.3.4" ]>
    (<[ "B" := mkPending 500000 (QStr "/b?x=1") "5.6.7.8" ]> ∅).


(** * Properties *)

(** ** Truthiness *)

Lemma as_truthy_Some v w : as_truthy v = Some w -> v = Some w /\ truthy v = true.
Proof.
  unfold as_truthy. destruct (truthy v) eqn:E; [|discriminate].
  intros ->. done.
Qed.

Lemma as_truthy_true v : truthy (Some v) = true -> as_truthy (Some v) = Some v.
Proof. unfold as_truthy. by intros ->. Qed.

(** ** The sweep loop *)

Section sweep_facts.
Variable now : Z.

(** Folding the loop body over the entries of [m], deleting from [acc]:
    a key of [m] whose record is expired is gone from [acc], every other
    key of [acc] is as it was. *)
Lemma sweep_fold_lookup (acc m : Cache) (k : string) :
  map_fold (sweep_step now) acc m !! k =
    match m !! k with
    | Some d => if expired now d then None else acc !! k
    | None => acc !! k
    end.
Proof.
  revert k.
  apply (map_fold_weak_ind (fun (r m' : Cache) => forall k,
    r !! k = match m' !! k with
             | Some d => if expired now d then None else acc !! k
             | None => acc !! k
             end)).
  - intros k. by rewrite lookup_empty.
  - intros i x m' r Hi IH k. unfold sweep_step.
    destruct (decide (k = i)) as [->|Hne].
    + rewrite lookup_insert_eq. destruct (expired now x).
      * apply lookup_delete_eq.
      * by rewrite IH, Hi.
    + rewrite lookup_insert_ne by done. destruct (expired now x).
      * rewrite lookup_delete_ne by done. apply IH.
      * apply IH.
Qed.

Lemma sweep_lookup (m : Cache) (k : string) :
  sweep now m !! k =
    match m !! k with
    | Some d => if expired now d then None else Some d
    | None => None
    end.
Proof.
  unfold sweep. rewrite sweep_fold_lookup.
  destruct (m !! k) as [d|]; [by destruct (expired now d)|done].
Qed.

(** The loop computes a filter: the design note's pure
    [sweep(mapping, now) -> mapping']. *)
Lemma sweep_filter (m : Cache) :
  sweep now m = filter (fun kv => expired now kv.2 = false) m.
Proof.
  apply map_eq. intros k. rewrite sweep_lookup, map_lookup_filter.
  destruct (m !! k) as [d|]; simpl; [|done].
  by destruct (expired now d).
Qed.

(** The loop over a sequence of entries, whatever the sequence. *)
Lemma sweep_entries_gone (l : list (string * PendingState)) (m : Cache)
    (k : string) :
  m !! k = None -> sweep_entries now l m !! k = None.
Proof.
  revert m. induction l as [|[k' d'] l IH]; intros m Hm; [done|].
  change (sweep_entries now l (sweep_step now k' d' m) !! k = None).
  apply IH. unfold sweep_step. simpl. destruct (expired now d'); [|done].
  destruct (decide (k' = k)) as [->|?];
    [apply lookup_delete_eq | by rewrite lookup_delete_ne].
Qed.

Lemma sweep_entries_hit (l : list (string * PendingState)) (m : Cache)
    (k : string) (d : PendingState) :
  (k, d) ∈ l -> expired now d = true -> sweep_entries now l m !! k = None.
Proof.
  revert m. induction l as [|[k' d'] l IH]; intros m Hin Hexp.
  - by apply elem_of_nil in Hin.
  - apply elem_of_cons in Hin as [Heq|Hin]; [|by apply IH].
    injection Heq as <- <-.
    change (sweep_entries now l (sweep_step now k d m) !! k = None).
    apply sweep_entries_gone.
    unfold sweep_step. simpl. rewrite Hexp. apply lookup_delete_eq.
Qed.

Lemma sweep_entries_miss (l : list (string * PendingState)) (m : Cache)
    (k : string) :
  (forall d, (k, d) ∈ l -> expired now d = false) ->
  sweep_entries now l m !! k = m !! k.
Proof.
  revert m. induction l as [|[k' d'] l IH]; intros m Hall; [done|].
  change (sweep_entries now l (sweep_step now k' d' m) !! k = m !! k).
  rewrite IH by (intros d Hd; apply Hall; by right).
  unfold sweep_step. destruct (expired now d') eqn:E; [|done].
  destruct (decide (k' = k)) as [->|?]; [|by rewrite lookup_delete_ne].
  rewrite (Hall d') in E by left. done.
Qed.

Lemma sweep_in_any_order (l : list (string * PendingState)) (m : Cache) :
  l ≡ₚ map_to_list m -> sweep_entries now l m = sweep now m.
Proof.
  intros Hperm. apply map_eq. intros k. rewrite sweep_lookup.
  destruct (m !! k) as [d|] eqn:Hk.
  - assert ((k, d) ∈ l) as Hin by (rewrite Hperm; by apply elem_of_map_to_list).
    destruct (expired now d) eqn:E.
    + by apply (sweep_entries_hit l m k d).
    + rewrite sweep_entries_miss; [done|]. intros d' Hd'.
      rewrite Hperm in Hd'. apply elem_of_map_to_list in Hd'. congruence.
  - rewrite sweep_entries_miss; [done|]. intros d' Hd'.
    rewrite Hperm in Hd'. apply elem_of_map_to_list in Hd'. congruence.
Qed.

Lemma sweep_survivor (m : Cache) (k : string) (d : PendingState) :
  sweep now m !! k = Some d -> m !! k = Some d /\ expired now d = false.
Proof.
  rewrite sweep_lookup. destruct (m !! k) as [d'|]; [|done].
  destruct (expired now d') eqn:E; [done|]. by intros [= ->].
Qed.
End sweep_facts.

Lemma expired_spec now d : expired now d = true <-> now - created d > EXPIRY_MS.
Proof. unfold expired. rewrite Z.gtb_ltb, Z.ltb_lt. lia. Qed.

Lemma not_expired_spec now d : expired now d = false <-> now - created d <= EXPIRY_MS.
Proof. unfold expired. rewrite Z.gtb_ltb, Z.ltb_ge. lia. Qed.

(** ** consume *)

Lemma consume_absent (t : qval) (m : Cache) :
  Map_get t m = None -> consume t m = (None, m).
Proof. unfold consume. by intros ->. Qed.

Lemma consume_present (t : string) (m : Cache) (ps : PendingState) :
  m !! t = Some ps -> consume (QStr t) m = (Some ps, delete t m).
Proof. unfold consume. simpl. by intros ->. Qed.

Lemma consume_gone (t : qval) (m : Cache) : Map_get t (consume t m).2 = None.
Proof.
  unfold consume. destruct (Map_get t m) eqn:E; simpl; [|done].
  destruct t; simpl in *; try done. apply lookup_delete_eq.
Qed.

(** ** The claims about the cache operations *)

(** C1: a token handed out by begin is consumed exactly once: the first
    consume returns the record begin stored (creation time, return URL,
    origin address) and removes it, and a further consume finds nothing. *)
Theorem begin_consume_once (token : string) (now : Z) (url : qval)
    (addr : string) (m : Cache) :
  let t := (begin token now url addr m).1 in
  let m1 := (begin token now url addr m).2 in
  let m2 := (consume (QStr t) m1).2 in
  t = token /\
  consume (QStr t) m1 = (Some (mkPending now url addr), delete t m1) /\
  consume (QStr t) m2 = (None, m2) /\
  m2 !! t = None.
Proof.
  simpl. split; [done|].
  assert (H1 : consume (QStr token) (<[token:=mkPending now url addr]> m)
               = (Some (mkPending now url addr),
                  delete token (<[token:=mkPending now url addr]> m))).
  { apply consume_present, lookup_insert_eq. }
  rewrite H1. simpl. split; [done|]. split.
  - apply consume_absent. simpl. apply lookup_delete_eq.
  - apply lookup_delete_eq.
Qed.

(** C2: sweep at time [now] removes a record exactly when its age
    [now - created] exceeds ten minutes (600000 ms); a record that is not
    older stays as it was, nothing is added, and consuming a swept token
    finds nothing. *)
Theorem sweep_removes_exactly_the_expired (now : Z) (m : Cache) (t : string) :
  EXPIRY_MS = 600000 /\
  (forall d, m !! t = Some d -> now - created d > EXPIRY_MS ->
     sweep now m !! t = None /\
     consume (QStr t) (sweep now m) = (None, sweep now m)) /\
  (forall d, m !! t = Some d -> now - created d <= EXPIRY_MS ->
     sweep now m !! t = Some d) /\
  (m !! t = None -> sweep now m !! t = None).
Proof.
  split; [reflexivity|]. split; [|split].
  - intros d Hd Hage. apply expired_spec in Hage.
    assert (sweep now m !! t = None) as Hgone
      by (by rewrite sweep_lookup, Hd, Hage).
    split; [done|]. by apply consume_absent.
  - intros d Hd Hage. apply not_expired_spec in Hage.
    by rewrite sweep_lookup, Hd, Hage.
  - intros Hd. by rewrite sweep_lookup, Hd.
Qed.

Lemma sweep_removes_exactly_the_expired_witness :
  sweep 660000 sample_cache !! "T" = None /\
  consume (QStr "T") (sweep 660000 sample_cache) = (None, sweep 660000 sample_cache) /\
  sweep 600000 sample_cache !! "T" = Some sample_record.
Proof.
  split; [|split].
  - apply (proj1 (proj2 (sweep_removes_exactly_the_expired 660000 sample_cache "T"))
             sample_record); [reflexivity | vm_compute; reflexivity].
  - apply (proj1 (proj2 (sweep_removes_exactly_the_expired 660000 sample_cache "T"))
             sample_record); [reflexivity | vm_compute; reflexivity].
  - apply (proj1 (proj2 (proj2 (sweep_removes_exactly_the_expired 600000 sample_cache "T")))
             sample_record); [reflexivity | vm_compute; discriminate].
Defined.

(** C5: sweeping twice at the same time is the same as sweeping once. *)
Theorem sweep_idempotent (now : Z) (m : Cache) :
  sweep now (sweep now m) = sweep now m.
Proof.
  apply map_eq. intros k. rewrite (sweep_lookup now (sweep now m)).
  rewrite sweep_lookup. destruct (m !! k) as [d|]; [|done].
  destruct (expired now d) eqn:E; [done|]. by rewrite E.
Qed.

Example begin_consume_scenario :
  let m := (begin "T" 0 (QStr "https://app.example/dash") "1.2.3.4" ∅).2 in
  (returnUrl <$> (consume (QStr "T") m).1) = Some (QStr "https://app.example/dash") /\
  (consume (QStr "nonexistent-token") m).1 = None.
Proof. split; vm_compute; reflexivity. Qed.

Example sweep_scenario :
  sweep 660000 sample_cache = ∅ /\ sweep 600000 sample_cache = sample_cache.
Proof. split; vm_compute; reflexivity. Qed.

(** ** The callback handler, branch by branch *)

Section callback_branches.
Variables (e : Env) (m : Cache) (req : Request).

Lemma callback_provider_error (err : qval) :
  as_truthy (query req !! "error") = Some err ->
  callback_handler e m req =
    (m,
     match toString err with
     | Ok text => RJson 400 (error_body ("Google OAuth error: " ++ text))
     | Throw msg => RUncaught msg
     end,
     [ErrOAuth err]).
Proof. unfold callback_handler. by intros ->. Qed.

Lemma callback_missing :
  as_truthy (query req !! "error") = None ->
  as_truthy (query req !! "code") = None \/
  as_truthy (query req !! "state") = None ->
  callback_handler e m req =
    (m, RJson 400 (error_body "Missing required parameters"),
     [WarnMissing (req_ip req)]).
Proof.
  unfold callback_handler. intros -> [-> | ->]; [done|].
  by destruct (as_truthy (query req !! "code")).
Qed.

Lemma callback_unknown_state (code st : qval) :
  as_truthy (query req !! "error") = None ->
  as_truthy (query req !! "code") = Some code ->
  as_truthy (query req !! "state") = Some st ->
  Map_get st m = None ->
  callback_handler e m req =
    (m, RJson 400 (error_body "Invalid or expired state. Please try again."),
     [WarnInvalidState st (req_ip req)]).
Proof.
  unfold callback_handler. intros -> -> -> Hm.
  by rewrite (consume_absent _ _ Hm).
Qed.

Lemma callback_known_state (code : qval) (t : string) (ps : PendingState) :
  as_truthy (query req !! "error") = None ->
  as_truthy (query req !! "code") = Some code ->
  as_truthy (query req !! "state") = Some (QStr t) ->
  m !! t = Some ps ->
  callback_handler e m req =
    (delete t m, (exchange e req code ps).1, (exchange e req code ps).2).
Proof.
  unfold callback_handler. intros -> -> -> Hm.
  rewrite (consume_present _ _ _ Hm). by destruct (exchange e req code ps).
Qed.

(** The handler never adds a record and never changes one. *)
Lemma callback_cache_sub (k : string) (r : PendingState) :
  (callback_handler e m req).1.1 !! k = Some r -> m !! k = Some r.
Proof.
  unfold callback_handler.
  destruct (as_truthy (query req !! "error")); [done|].
  destruct (as_truthy (query req !! "code")) as [code|]; [|done].
  destruct (as_truthy (query req !! "state")) as [st|]; [|done].
  unfold consume. destruct (Map_get st m) as [ps|] eqn:E; [|done].
  destruct (exchange e req code ps). simpl.
  destruct st; simpl; try done. by intros [_ ?]%lookup_delete_Some.
Qed.
End callback_branches.

Lemma exchange_getToken_throws e req code ps msg :
  getToken e code = Throw msg ->
  exchange e req code ps =
    (RJson 500 (error_body "Failed to exchange authorization code"),
     [ErrExchange msg]).
Proof. unfold exchange. by intros ->. Qed.

(** On a parsed body the handler is the three-way test of lines 171-188. *)
Lemma refresh_parsed e m req :
  body req <> BUndefined ->
  refresh_handler e m req =
    match body_prop "refresh_token" (body req) with
    | Some tok =>
        if jtruthy (Some tok) then
          match refreshAccessToken e tok with
          | Ok credentials =>
              (m, RJson 200 (obj [("access_token", cred_access_token credentials);
                                  ("expiry_date", cred_expiry_date credentials)]), [])
          | Throw msg =>
              (m, RJson 401 (error_body "Failed to refresh token"), [ErrRefresh msg])
          end
        else (m, RJson 400 (error_body "Missing refresh_token"), [])
    | None => (m, RJson 400 (error_body "Missing refresh_token"), [])
    end.
Proof. unfold refresh_handler. by destruct (body req). Qed.

Lemma refresh_undefined e m req :
  body req = BUndefined ->
  exists msg, refresh_handler e m req = (m, RUncaught msg, []).
Proof. unfold refresh_handler. intros ->. by eexists. Qed.

Lemma body_prop_parsed k b v : body_prop k b = Some v -> b <> BUndefined.
Proof. by destruct b. Qed.

Lemma refresh_cache e m req : (refresh_handler e m req).1.1 = m.
Proof.
  destruct (body req) eqn:Hb.
  3: { destruct (refresh_undefined e m req Hb) as [msg ->]. done. }
  all: rewrite refresh_parsed by (rewrite Hb; discriminate).
  all: destruct (body_prop _ _) as [tok|]; [|done].
  all: destruct (jtruthy _); [|done].
  all: by destruct (refreshAccessToken e tok).
Qed.

(** ** Reachable states of the Map *)

Lemma run_snoc evs ev : run (evs ++ [ev]) = step (run evs) ev.
Proof. unfold run. by rewrite foldl_app. Qed.

Lemma issued_snoc_auth evs e req :
  issued (evs ++ [EvAuth e req]) = (issued evs ++ [uuidv4 e])%list.
Proof. unfold issued. by rewrite omap_app. Qed.

(** Every key of a reachable Map is a token some earlier auth request got
    from the generator. *)
Lemma run_keys_issued evs k : is_Some (run evs !! k) -> k ∈ issued evs.
Proof.
  revert k. induction evs as [|ev evs IH] using rev_ind; intros k [r Hk].
  - unfold run in Hk. simpl in Hk. by rewrite lookup_empty in Hk.
  - rewrite run_snoc in Hk. unfold issued. rewrite omap_app.
    apply elem_of_app. destruct ev as [e req|e req|e req|now]; simpl in Hk.
    + apply lookup_insert_Some in Hk as [[<- _]|[_ Hk]].
      * right. simpl. set_solver.
      * left. apply IH. eauto.
    + left. apply IH. apply callback_cache_sub in Hk. eauto.
    + left. apply IH. rewrite refresh_cache in Hk. eauto.
    + left. apply IH. apply sweep_survivor in Hk as [Hk _]. eauto.
Qed.

Lemma toString_strings (l : list string) :
  toString (QArr (QStr <$> l)) = Ok (String.concat "," l).
Proof.
  induction l as [|x [|y l] IH]; [done|done|].
  change (toString (QArr (QStr <$> x :: y :: l))) with
    (match toString (QArr (QStr <$> y :: l)) with
     | Throw msg => Throw msg
     | Ok sr => Ok (x ++ "," ++ sr)
     end).
  by rewrite IH.
Qed.

Lemma truthy_Some_iff (v : qval) : truthy (Some v) = true <-> v <> QStr "".
Proof.
  destruct v as [s| |]; simpl; try (split; [discriminate|done]).
  destruct (String.eqb_spec s ""); simpl; split; try done; congruence.
Qed.

Lemma as_truthy_empty : as_truthy (Some (QStr "")) = None.
Proof. reflexivity. Qed.

Lemma as_truthy_nonempty (v : qval) : v <> QStr "" -> as_truthy (Some v) = Some v.
Proof. intros H. by apply as_truthy_true, truthy_Some_iff. Qed.

(** C7: when the generator never hands out the same value twice along a
    history, the token of the next auth request is held by no live record:
    the insertion overwrites nothing, every earlier record is kept as it was,
    the Map grows by one, and its keys stay pairwise distinct. *)
Theorem begin_token_is_fresh (evs : list Event) (e : Env) (req : Request) :
  NoDup (issued (evs ++ [EvAuth e req])) ->
  let m := run evs in
  let t := (begin (uuidv4 e) (Date_now e) (pick_return_url e req) (req_ip req) m).1 in
  let m' := run (evs ++ [EvAuth e req]) in
  m !! t = None /\
  (forall k r, m !! k = Some r -> m' !! k = Some r) /\
  size m' = S (size m) /\
  NoDup (map_to_list m').*1.
Proof.
  intros Hnd. simpl. rewrite issued_snoc_auth in Hnd.
  apply NoDup_app in Hnd as (_ & Hfresh & _).
  assert (run evs !! uuidv4 e = None) as Habs.
  { apply eq_None_not_Some. intros Hin%run_keys_issued.
    apply (Hfresh _ Hin). set_solver. }
  split; [done|]. rewrite run_snoc. simpl. split; [|split].
  - intros k r Hk. rewrite lookup_insert_ne; [done|]. congruence.
  - by apply map_size_insert_None.
  - apply NoDup_fst_map_to_list.
Qed.

Lemma begin_token_is_fresh_witness :
  NoDup (issued ([EvAuth accepting_env (request_of [] no_body)]
                   ++ [EvAuth rejecting_env (request_of [] no_body)])) /\
  run [EvAuth accepting_env (request_of [] no_body)] !! "T2" = None.
Proof.
  assert (NoDup (issued ([EvAuth accepting_env (request_of [] no_body)]
                   ++ [EvAuth rejecting_env (request_of [] no_body)]))) as H.
  { compute_done. }
  split; [exact H|].
  exact (proj1 (begin_token_is_fresh _ _ _ H)).
Defined.

(** ** The claims about the handlers *)

(** C6: the auth handler has no failing path.  It stores, under the token
    the generator returned, a record with the clock reading, the supplied
    return URL (the configured default, or "/", when none or an empty one was
    supplied) and the request's address, leaves every other record alone, and
    answers with a 302 redirect to the authorization URL built with that
    token as [state]. *)
Theorem auth_always_redirects (e : Env) (m : Cache) (req : Request) :
  let token := uuidv4 e in
  let url := pick_return_url e req in
  let record := mkPending (Date_now e) url (req_ip req) in
  begin token (Date_now e) url (req_ip req) m = (token, <[token := record]> m) /\
  auth_handler e m req =
    (<[token := record]> m,
     RRedirect 302 (generateAuthUrl e (mkOpts "offline" SCOPES token "consent")),
     []) /\
  (auth_handler e m req).1.1 !! token = Some record /\
  (forall k, k <> token -> (auth_handler e m req).1.1 !! k = m !! k) /\
  (forall v, query req !! "return_url" = Some v -> v <> QStr "" -> url = v) /\
  (query req !! "return_url" = None \/ query req !! "return_url" = Some (QStr "") ->
     url = default_return_url e) /\
  (forall s, DEFAULT_RETURN_URL e = Some s -> s <> "" -> default_return_url e = QStr s) /\
  (DEFAULT_RETURN_URL e = None \/ DEFAULT_RETURN_URL e = Some "" ->
     default_return_url e = QStr "/").
Proof.
  simpl. repeat split.
  - apply lookup_insert_eq.
  - intros k Hk. by rewrite lookup_insert_ne.
  - intros v Hv Hne. unfold pick_return_url. rewrite Hv.
    apply truthy_Some_iff in Hne. by rewrite Hne.
  - intros [H|H]; unfold pick_return_url; by rewrite H.
  - intros s Hs Hne. unfold default_return_url. rewrite Hs.
    by destruct (String.eqb_spec s "").
  - intros [H|H]; unfold default_return_url; by rewrite H.
Qed.

Lemma auth_always_redirects_witness :
  pick_return_url rejecting_env
    (request_of [("return_url", QStr "https://app.example/dash")] no_body) =
    QStr "https://app.example/dash" /\
  pick_return_url rejecting_env (request_of [] no_body) =
    QStr "https://flut.live/dashboard" /\
  default_return_url accepting_env = QStr "/".
Proof.
  destruct (auth_always_redirects rejecting_env ∅
      (request_of [("return_url", QStr "https://app.example/dash")] no_body))
    as (_ & _ & _ & _ & Hsupplied & _).
  destruct (auth_always_redirects rejecting_env ∅ (request_of [] no_body))
    as (_ & _ & _ & _ & _ & Hnone & Hconfigured & _).
  destruct (auth_always_redirects accepting_env ∅ (request_of [] no_body))
    as (_ & _ & _ & _ & _ & _ & _ & Hslash).
  split; [|split].
  - apply Hsupplied; [reflexivity | discriminate].
  - rewrite Hnone by (left; reflexivity).
    apply Hconfigured; [reflexivity | discriminate].
  - apply Hslash. left. reflexivity.
Defined.

Example auth_scenario :
  auth_handler rejecting_env ∅
    (request_of [("return_url", QStr "https://app.example/dash")] no_body) =
  ({[ "T2" := mkPending 660000 (QStr "https://app.example/dash") "1.2.3.4" ]},
   RRedirect 302 "https://accounts.google.com/o/oauth2/v2/auth?state=T2", []).
Proof. vm_compute. reflexivity. Qed.

(** C8: a callback without [error] in which [code] or [state] is missing is
    answered 400 "Missing required parameters", and the Map is left as it
    was: no state token is consumed. *)
Theorem callback_missing_parameters (e : Env) (m : Cache) (req : Request) :
  query req !! "error" = None ->
  query req !! "code" = None \/ query req !! "state" = None ->
  callback_handler e m req =
    (m, RJson 400 (JObj [("error", JStr "Missing required parameters")]),
     [WarnMissing (req_ip req)]).
Proof.
  intros Herr Hmiss. apply callback_missing.
  - by rewrite Herr.
  - destruct Hmiss as [-> | ->]; [left|right]; done.
Qed.

Lemma callback_missing_parameters_witness :
  callback_handler accepting_env sample_cache
    (request_of [("state", QStr "T")] no_body) =
  (sample_cache, RJson 400 (JObj [("error", JStr "Missing required parameters")]),
   [WarnMissing "1.2.3.4"]).
Proof.
  apply (callback_missing_parameters accepting_env sample_cache
           (request_of [("state", QStr "T")] no_body)).
  - vm_compute. reflexivity.
  - left. vm_compute. reflexivity.
Defined.

(** C3: a callback that carries no provider error, a code and a live state
    token, and whose code Google refuses, is answered 500 "Failed to exchange
    authorization code"; the record is gone from the Map all the same, so a
    later consume finds nothing and the same callback replayed, in whatever
    world, is answered 400 for an invalid state. *)
Theorem failed_exchange_consumes_state (e : Env) (m : Cache) (req : Request)
    (code : qval) (t : string) (ps : PendingState) (msg : string) :
  as_truthy (query req !! "error") = None ->
  query req !! "code" = Some code -> code <> QStr "" ->
  query req !! "state" = Some (QStr t) -> t <> "" ->
  m !! t = Some ps ->
  getToken e code = Throw msg ->
  let m' := (callback_handler e m req).1.1 in
  callback_handler e m req =
    (delete t m,
     RJson 500 (JObj [("error", JStr "Failed to exchange authorization code")]),
     [ErrExchange msg]) /\
  m' !! t = None /\
  consume (QStr t) m' = (None, m') /\
  (forall e', callback_handler e' m' req =
     (m', RJson 400 (JObj [("error", JStr "Invalid or expired state. Please try again.")]),
      [WarnInvalidState (QStr t) (req_ip req)])).
Proof.
  intros Herr Hcode Hc Hst Ht Hm Hthrow.
  assert (as_truthy (query req !! "code") = Some code) as Hcode'
    by (rewrite Hcode; by apply as_truthy_nonempty).
  assert (as_truthy (query req !! "state") = Some (QStr t)) as Hst'
    by (rewrite Hst; apply as_truthy_nonempty; congruence).
  assert (callback_handler e m req =
    (delete t m,
     RJson 500 (JObj [("error", JStr "Failed to exchange authorization code")]),
     [ErrExchange msg])) as Hrun.
  { rewrite (callback_known_state e m req code t ps) by done.
    by rewrite (exchange_getToken_throws _ _ _ _ _ Hthrow). }
  simpl. rewrite Hrun. simpl.
  assert (delete t m !! t = None) as Hgone by apply lookup_delete_eq.
  repeat split; try done.
  - by apply consume_absent.
  - intros e'. by apply (callback_unknown_state e' _ req code (QStr t)).
Qed.

Lemma failed_exchange_consumes_state_witness :
  callback_handler rejecting_env sample_cache
    (request_of [("code", QStr "4/abc"); ("state", QStr "T")] no_body) =
  (delete "T" sample_cache,
   RJson 500 (JObj [("error", JStr "Failed to exchange authorization code")]),
   [ErrExchange "invalid_grant"]).
Proof.
  refine (proj1 (failed_exchange_consumes_state rejecting_env sample_cache
    (request_of [("code", QStr "4/abc"); ("state", QStr "T")] no_body)
    (QStr "4/abc") "T" sample_record "invalid_grant" _ _ _ _ _ _ _));
    try (vm_compute; reflexivity); discriminate.
Defined.

Lemma Absent_lookup t m : Absent t m -> m !! t = None.
Proof.
  intros [evs Hni | m0 | now m0 d Hd Hage].
  - apply eq_None_not_Some. by intros ?%run_keys_issued.
  - apply (consume_gone (QStr t)).
  - apply expired_spec in Hage. by rewrite sweep_lookup, Hd, Hage.
Qed.

(** With [state] naming a token that both Maps lack, the handler's outcome
    does not depend on the Map. *)
Lemma callback_absent_same (t : string) (m1 m2 : Cache) (e : Env) (req : Request) :
  m1 !! t = None -> m2 !! t = None ->
  query req !! "state" = Some (QStr t) ->
  (callback_handler e m1 req).1.1 = m1 /\
  (callback_handler e m2 req).1.1 = m2 /\
  (callback_handler e m1 req).1.2 = (callback_handler e m2 req).1.2 /\
  (callback_handler e m1 req).2 = (callback_handler e m2 req).2.
Proof.
  intros H1 H2 Hst. unfold callback_handler. rewrite Hst.
  destruct (as_truthy (query req !! "error")); [done|].
  destruct (as_truthy (query req !! "code")) as [code|]; [|done].
  destruct (as_truthy (Some (QStr t))) as [st|] eqn:E; [|done].
  apply as_truthy_Some in E as [[= <-] _].
  by rewrite !consume_absent.
Qed.

(** C4: whether a token was never issued, was already consumed or was swept,
    consume gives the same NotFound, and a callback naming it gets the same
    response and leaves the same console line in any two of the three cases;
    when the request is otherwise well-formed that response is 400 "Invalid
    or expired state. Please try again.". *)
Theorem absent_causes_indistinguishable (t : string) (m1 m2 : Cache)
    (e : Env) (req : Request) :
  Absent t m1 -> Absent t m2 ->
  query req !! "state" = Some (QStr t) ->
  (consume (QStr t) m1).1 = None /\ (consume (QStr t) m2).1 = None /\
  (callback_handler e m1 req).1.2 = (callback_handler e m2 req).1.2 /\
  (callback_handler e m1 req).2 = (callback_handler e m2 req).2 /\
  (callback_handler e m1 req).1.1 = m1 /\
  (callback_handler e m2 req).1.1 = m2 /\
  (forall code, as_truthy (query req !! "error") = None ->
     query req !! "code" = Some code -> code <> QStr "" -> t <> "" ->
     (callback_handler e m1 req).1.2 =
       RJson 400 (JObj [("error", JStr "Invalid or expired state. Please try again.")])).
Proof.
  intros H1%Absent_lookup H2%Absent_lookup Hst.
  destruct (callback_absent_same t m1 m2 e req H1 H2 Hst) as (Hc1 & Hc2 & Hr & Hl).
  rewrite !consume_absent by done. repeat split; try done.
  intros code Herr Hcode Hc Ht.
  rewrite (callback_unknown_state e m1 req code (QStr t)); try done.
  - rewrite Hcode. by apply as_truthy_nonempty.
  - rewrite Hst. apply as_truthy_nonempty. congruence.
Qed.

Lemma absent_causes_indistinguishable_witness :
  let req := request_of [("code", QStr "4/abc"); ("state", QStr "T")] no_body in
  (callback_handler accepting_env (consume (QStr "T") sample_cache).2 req).1.2 =
  (callback_handler accepting_env (sweep 660000 sample_cache) req).1.2.
Proof.
  intros req.
  refine (proj1 (proj2 (proj2 (absent_causes_indistinguishable "T"
    (consume (QStr "T") sample_cache).2 (sweep 660000 sample_cache)
    accepting_env req _ _ _)))).
  - apply AlreadyConsumed.
  - apply (SweptAway "T" 660000 sample_cache sample_record).
    + vm_compute. reflexivity.
    + vm_compute. reflexivity.
  - vm_compute. reflexivity.
Defined.

(** C9, as the code has it: on a parsed body (an object or an array) the
    refresh handler answers 400 "Missing refresh_token" when the body has no
    [refresh_token], 401 when Google rejects the refresh, and on success 200
    with the [access_token] and the [expiry_date] of the credentials Google
    returned and nothing else; a property the credentials lack is left out,
    and with both present the body has exactly the two.  It never touches
    the Map. *)
Theorem refresh_responses (e : Env) (m : Cache) (req : Request) :
  (body req <> BUndefined ->
   body_prop "refresh_token" (body req) = None ->
     refresh_handler e m req =
       (m, RJson 400 (JObj [("error", JStr "Missing refresh_token")]), [])) /\
  (forall tok msg,
     body_prop "refresh_token" (body req) = Some tok ->
     jtruthy (Some tok) = true ->
     refreshAccessToken e tok = Throw msg ->
     refresh_handler e m req =
       (m, RJson 401 (JObj [("error", JStr "Failed to refresh token")]),
        [ErrRefresh msg])) /\
  (forall tok c,
     body_prop "refresh_token" (body req) = Some tok ->
     jtruthy (Some tok) = true ->
     refreshAccessToken e tok = Ok c ->
     refresh_handler e m req =
       (m, RJson 200 (obj [("access_token", cred_access_token c);
                           ("expiry_date", cred_expiry_date c)]), [])) /\
  (forall tok access expiry,
     body_prop "refresh_token" (body req) = Some tok ->
     jtruthy (Some tok) = true ->
     refreshAccessToken e tok = Ok (mkCredentials (Some access) (Some expiry)) ->
     refresh_handler e m req =
       (m, RJson 200 (JObj [("access_token", access); ("expiry_date", expiry)]),
        [])).
Proof.
  split; [|split; [|split]].
  - intros Hb Hnone. rewrite refresh_parsed by done. by rewrite Hnone.
  - intros tok msg Htok Ht Hthrow.
    rewrite refresh_parsed by (by apply body_prop_parsed in Htok).
    by rewrite Htok, Ht, Hthrow.
  - intros tok c Htok Ht Hok.
    rewrite refresh_parsed by (by apply body_prop_parsed in Htok).
    by rewrite Htok, Ht, Hok.
  - intros tok access expiry Htok Ht Hok.
    rewrite refresh_parsed by (by apply body_prop_parsed in Htok).
    by rewrite Htok, Ht, Hok.
Qed.

Lemma refresh_responses_witness :
  refresh_handler rejecting_env sample_cache (request_of [] no_body) =
    (sample_cache, RJson 400 (JObj [("error", JStr "Missing refresh_token")]), []) /\
  refresh_handler rejecting_env sample_cache
      (request_of [] (BObject [("refresh_token", JStr "1//rt")])) =
    (sample_cache, RJson 401 (JObj [("error", JStr "Failed to refresh token")]),
     [ErrRefresh "invalid_grant"]) /\
  refresh_handler accepting_env sample_cache
      (request_of [] (BObject [("refresh_token", JStr "1//rt")])) =
    (sample_cache,
     RJson 200 (JObj [("access_token", JStr "at2"); ("expiry_date", JStr "soon")]),
     []).
Proof.
  split; [|split].
  - apply (proj1 (refresh_responses rejecting_env sample_cache
                    (request_of [] no_body))); [discriminate | reflexivity].
  - apply (proj1 (proj2 (refresh_responses rejecting_env sample_cache
             (request_of [] (BObject [("refresh_token", JStr "1//rt")]))))
             (JStr "1//rt") "invalid_grant"); reflexivity.
  - apply (proj2 (proj2 (proj2 (refresh_responses accepting_env sample_cache
             (request_of [] (BObject [("refresh_token", JStr "1//rt")])))))
             (JStr "1//rt") (JStr "at2") (JStr "soon")); reflexivity.
Defined.

(** C9, as it is worded, fails in two places.  A POST without a JSON body
    leaves [req.body] undefined under the parser of Express 5: the body lacks
    [refresh_token], yet line 169 throws outside the [try] and the handler
    sends no 400.  And the 200 body has both properties only if the
    credentials have both: here Google's answer carries no expiry and the
    body is [{access_token}] alone. *)
Lemma refresh_without_body_throws :
  body_prop "refresh_token" (body (request_of [] BUndefined)) = None /\
  (exists msg, refresh_handler accepting_env sample_cache (request_of [] BUndefined) =
     (sample_cache, RUncaught msg, [])) /\
  status_of (refresh_handler accepting_env sample_cache
               (request_of [] BUndefined)).1.2 <> Some 400 /\
  refresh_handler partial_env sample_cache
      (request_of [] (BObject [("refresh_token", JStr "1//rt")])) =
    (sample_cache, RJson 200 (JObj [("access_token", JStr "at2")]), []) /\
  ~ (forall e m req,
       body_prop "refresh_token" (body req) = None ->
       (refresh_handler e m req).1.2 =
         RJson 400 (JObj [("error", JStr "Missing refresh_token")])).
Proof.
  split; [reflexivity|]. split; [by eexists|]. split; [discriminate|].
  split; [reflexivity|]. intros H.
  specialize (H accepting_env sample_cache (request_of [] BUndefined) eq_refl).
  discriminate.
Qed.




(** ** The two handlers in sequence *)

(** An auth request followed by a well-formed callback naming its token: the
    exchange runs with the record the auth request stored, the token is gone
    afterwards, and the same callback again is refused. *)
Lemma auth_then_callback (e e1 e2 : Env) (m : Cache) (req0 req : Request)
    (code : qval) :
  as_truthy (query req !! "error") = None ->
  query req !! "code" = Some code -> code <> QStr "" ->
  query req !! "state" = Some (QStr (uuidv4 e)) -> uuidv4 e <> "" ->
  let m1 := (auth_handler e m req0).1.1 in
  let ps := mkPending (Date_now e) (pick_return_url e req0) (req_ip req0) in
  callback_handler e1 m1 req =
    (delete (uuidv4 e) m1, (exchange e1 req code ps).1, (exchange e1 req code ps).2) /\
  callback_handler e2 (delete (uuidv4 e) m1) req =
    (delete (uuidv4 e) m1,
     RJson 400 (JObj [("error", JStr "Invalid or expired state. Please try again.")]),
     [WarnInvalidState (QStr (uuidv4 e)) (req_ip req)]).
Proof.
  intros Herr Hcode Hc Hst Ht. simpl.
  assert (as_truthy (query req !! "code") = Some code) as Hcode'
    by (rewrite Hcode; by apply as_truthy_nonempty).
  assert (as_truthy (query req !! "state") = Some (QStr (uuidv4 e))) as Hst'
    by (rewrite Hst; apply as_truthy_nonempty; congruence).
  split.
  - apply callback_known_state; try done. apply lookup_insert_eq.
  - apply (callback_unknown_state e2 _ req code (QStr (uuidv4 e))); try done.
    simpl. apply lookup_delete_eq.
Qed.


(** * Further properties of server.js *)

(** ** The sweep, algebraically *)

Lemma expired_mono now1 now2 d :
  now1 <= now2 -> expired now1 d = true -> expired now2 d = true.
Proof. rewrite !expired_spec. lia. Qed.

Lemma sweep_delete now t (m : Cache) :
  sweep now (delete t m) = delete t (sweep now m).
Proof. rewrite !sweep_filter. apply map_filter_delete. Qed.

Lemma sweep_subseteq now (m : Cache) : sweep now m ⊆ m.
Proof. rewrite sweep_filter. apply map_filter_subseteq. Qed.

(** X1: the outcome of the timer's loop does not depend on the order in which
    the Map yields its entries: run over any arrangement of the entries of
    [m], deleting from [m] as it goes, it ends in the same Map. *)
Theorem sweep_order_irrelevant (now : Z) (m : Cache)
    (l1 l2 : list (string * PendingState)) :
  l1 ≡ₚ map_to_list m -> l2 ≡ₚ map_to_list m ->
  sweep_entries now l1 m = sweep_entries now l2 m /\
  sweep_entries now l1 m = sweep now m.
Proof.
  intros H1 H2. by rewrite (sweep_in_any_order now l1 m H1),
    (sweep_in_any_order now l2 m H2).
Qed.

Lemma sweep_order_irrelevant_witness :
  sweep_entries 660000
    [("A", mkPending 0 (QStr "/a") "1.2.3.4");
     ("B", mkPending 500000 (QStr "/b?x=1") "5.6.7.8")] two_cache =
  sweep_entries 660000
    [("B", mkPending 500000 (QStr "/b?x=1") "5.6.7.8");
     ("A", mkPending 0 (QStr "/a") "1.2.3.4")] two_cache.
Proof.
  refine (proj1 (sweep_order_irrelevant 660000 two_cache _ _ _ _));
    vm_compute; first [reflexivity | apply perm_swap].
Defined.

(** X2: two sweeps in a row amount to one sweep at the later of the two
    times, in whichever order they ran; in particular sweeps commute. *)
Theorem sweep_sweep_max (a b : Z) (m : Cache) :
  sweep a (sweep b m) = sweep (Z.max a b) m /\
  sweep a (sweep b m) = sweep b (sweep a m).
Proof.
  assert (forall a b, sweep a (sweep b m) = sweep (Z.max a b) m) as H.
  { clear a b. intros a b. apply map_eq. intros k. rewrite !sweep_lookup.
    destruct (m !! k) as [d|]; [|done].
    destruct (expired b d) eqn:Eb.
    - rewrite (expired_mono b (Z.max a b) d); [done|lia|done].
    - destruct (expired a d) eqn:Ea.
      + rewrite (expired_mono a (Z.max a b) d); [done|lia|done].
      + apply not_expired_spec in Ea, Eb.
        assert (expired (Z.max a b) d = false) as ->; [|done].
        apply not_expired_spec. lia. }
  split; [apply H|]. by rewrite !H, Z.max_comm.
Qed.

(** X3: sweeping and consuming commute on the Map: consuming a token from the
    swept Map leaves what sweeping leaves after the token was consumed.  The
    record handed back after the sweep is the one handed back before it,
    unless it had expired, in which case nothing is handed back. *)
Theorem sweep_consume_commute (now : Z) (st : qval) (m : Cache) :
  (consume st (sweep now m)).2 = sweep now (consume st m).2 /\
  (consume st (sweep now m)).1 =
    match (consume st m).1 with
    | Some d => if expired now d then None else Some d
    | None => None
    end.
Proof.
  unfold consume. destruct st as [t|l|l]; simpl; try done.
  rewrite sweep_lookup. destruct (m !! t) as [d|] eqn:Hm; simpl; [|done].
  destruct (expired now d) eqn:E; simpl.
  - split; [|done]. rewrite sweep_delete. symmetry. apply delete_id.
    by rewrite sweep_lookup, Hm, E.
  - split; [|done]. by rewrite sweep_delete.
Qed.

(** ** The callback handler beyond the claims *)

Lemma exchange_set_clock now e req code ps :
  exchange (set_clock now e) req code ps = exchange e req code ps.
Proof. reflexivity. Qed.

Lemma exchange_redated c e req code ps :
  exchange e req code (mkPending c (returnUrl ps) (ip ps)) = exchange e req code ps.
Proof. reflexivity. Qed.

Lemma Map_get_redate f st (m : Cache) :
  Map_get st (redate f m) =
    (fun ps => mkPending (f ps) (returnUrl ps) (ip ps)) <$> Map_get st m.
Proof. destruct st; simpl; try done. unfold redate. apply lookup_fmap. Qed.

Lemma Map_delete_redate f st (m : Cache) :
  Map_delete st (redate f m) = redate f (Map_delete st m).
Proof. destruct st; simpl; try done. unfold redate. by rewrite fmap_delete. Qed.

(** X4: the callback never compares a record's age with the expiry.  Change
    the creation times stored in the Map and the clock in any way: the
    response and the console output are the same, and the same token is
    removed.  A token older than ten minutes that no sweep has removed yet is
    therefore still accepted. *)
Theorem callback_ignores_age (e : Env) (m : Cache) (req : Request)
    (f : PendingState -> Z) (now : Z) :
  callback_handler (set_clock now e) (redate f m) req =
    (redate f (callback_handler e m req).1.1,
     (callback_handler e m req).1.2,
     (callback_handler e m req).2).
Proof.
  unfold callback_handler.
  destruct (as_truthy (query req !! "error")); [done|].
  destruct (as_truthy (query req !! "code")) as [code|]; [|done].
  destruct (as_truthy (query req !! "state")) as [st|]; [|done].
  unfold consume. rewrite Map_get_redate.
  destruct (Map_get st m) as [ps|]; simpl; [|done].
  rewrite exchange_set_clock, exchange_redated, Map_delete_redate.
  by destruct (exchange e req code ps).
Qed.

Example stale_token_still_accepted :
  (callback_handler (set_clock 86400000 accepting_env) sample_cache
     (request_of [("code", QStr "4/abc"); ("state", QStr "T")] no_body)).1.2 =
  RRedirect 302 "https://app.example/dash?auth=success&email=user%40example.com".
Proof. vm_compute. reflexivity. Qed.



Lemma exchange_shapes e req code ps :
  (exists b, (exchange e req code ps).1 = RJson 200 b) \/
  (exists loc, (exchange e req code ps).1 = RRedirect 302 loc) \/
  (exchange e req code ps).1 =
    RJson 500 (JObj [("error", JStr "Failed to exchange authorization code")]).
Proof.
  unfold exchange. destruct (getToken e code) as [tokens|msg]; [|by right; right].
  destruct (userinfo_get e tokens) as [ui|msg]; [|by right; right].
  set (js := RJson 200 _).
  assert ((exists b, js = RJson 200 b) \/ (exists loc, js = RRedirect 302 loc) \/
     js = RJson 500 (JObj [("error", JStr "Failed to exchange authorization code")]))
    as Hjs by (left; by eexists).
  clearbody js.
  set (other := match includes_qmark _ with Ok _ => _ | Throw _ => _ end).
  assert ((exists b, other.1 = RJson 200 b) \/ (exists loc, other.1 = RRedirect 302 loc) \/
     other.1 = RJson 500 (JObj [("error", JStr "Failed to exchange authorization code")]))
    as Hother.
  { subst other. destruct (includes_qmark _) as [q|msg]; [|by right; right].
    destruct (toString _) as [base|msg]; [|by right; right].
    destruct (encodeURIComponent e (email ui)) as [mail|msg]; [|by right; right].
    right; left. by eexists. }
  clearbody other.
  repeat case_match; simpl; assumption.
Qed.

(** X6: when the callback answers, it answers with one of four shapes and
    nothing else: a JSON body with status 200 or 400, a 302 redirect, or
    status 500 with the one fixed body.  Whatever message a failing call
    carried goes to the console only, never into the response.  The one way
    in which it does not answer is an [error] parameter that cannot be
    converted to a string: line 101 then throws and nothing is sent. *)
Theorem callback_response_shapes (e : Env) (m : Cache) (req : Request) :
  let r := (callback_handler e m req).1.2 in
  (exists b, r = RJson 200 b) \/
  (exists loc, r = RRedirect 302 loc) \/
  (exists msg, r = RJson 400 (JObj [("error", JStr msg)])) \/
  r = RJson 500 (JObj [("error", JStr "Failed to exchange authorization code")]) \/
  (exists err msg,
     query req !! "error" = Some err /\ err <> QStr "" /\
     toString err = Throw msg /\ r = RUncaught msg).
Proof.
  simpl. unfold callback_handler.
  destruct (as_truthy (query req !! "error")) as [err|] eqn:Eerr.
  { apply as_truthy_Some in Eerr as [Eerr Ht]. rewrite Eerr in Ht.
    apply truthy_Some_iff in Ht. simpl.
    destruct (toString err) as [text|msg] eqn:Estr.
    - right; right; left. by eexists.
    - do 4 right. by exists err, msg. }
  destruct (as_truthy (query req !! "code")) as [code|];
    [|right; right; left; by eexists].
  destruct (as_truthy (query req !! "state")) as [st|];
    [|right; right; left; by eexists].
  unfold consume. destruct (Map_get st m) as [ps|];
    [|right; right; left; by eexists].
  pose proof (exchange_shapes e req code ps) as H.
  destruct (exchange e req code ps) as [r l]. simpl in *.
  destruct H as [H|[H|H]]; auto.
Qed.

(** X7: a [state] parameter that is not a string (a repeated parameter
    arrives as an array, bracket syntax as an object) names no key of the
    Map: the callback answers 400 for an invalid state and consumes nothing,
    even if the array holds a live token. *)
Theorem callback_non_string_state (e : Env) (m : Cache) (req : Request)
    (code st : qval) :
  as_truthy (query req !! "error") = None ->
  query req !! "code" = Some code -> code <> QStr "" ->
  query req !! "state" = Some st -> (forall t, st <> QStr t) ->
  callback_handler e m req =
    (m, RJson 400 (JObj [("error", JStr "Invalid or expired state. Please try again.")]),
     [WarnInvalidState st (req_ip req)]).
Proof.
  intros Herr Hcode Hc Hst Hns.
  apply (callback_unknown_state e m req code st); try done.
  - rewrite Hcode. by apply as_truthy_nonempty.
  - rewrite Hst. apply as_truthy_nonempty. apply Hns.
  - destruct st; try done. by destruct (Hns s).
Qed.

Lemma callback_non_string_state_witness :
  callback_handler accepting_env sample_cache
    (request_of [("code", QStr "4/abc"); ("state", QArr [QStr "T"; QStr "T"])] no_body) =
  (sample_cache,
   RJson 400 (JObj [("error", JStr "Invalid or expired state. Please try again.")]),
   [WarnInvalidState (QArr [QStr "T"; QStr "T"]) "1.2.3.4"]).
Proof.
  apply (callback_non_string_state accepting_env sample_cache
    (request_of [("code", QStr "4/abc"); ("state", QArr [QStr "T"; QStr "T"])] no_body)
    (QStr "4/abc") (QArr [QStr "T"; QStr "T"]));
    try (vm_compute; reflexivity); discriminate.
Defined.

(** X8: when the code is exchanged but the profile request then fails, the
    answer is the same 500 as for a refused code, the state token is spent
    all the same, and the tokens Google had issued appear nowhere in the
    outcome. *)
Theorem callback_userinfo_failure (e : Env) (m : Cache) (req : Request)
    (code : qval) (t : string) (ps : PendingState) (tokens : Tokens)
    (msg : string) :
  as_truthy (query req !! "error") = None ->
  query req !! "code" = Some code -> code <> QStr "" ->
  query req !! "state" = Some (QStr t) -> t <> "" ->
  m !! t = Some ps ->
  getToken e code = Ok tokens ->
  userinfo_get e tokens = Throw msg ->
  callback_handler e m req =
    (delete t m,
     RJson 500 (JObj [("error", JStr "Failed to exchange authorization code")]),
     [ErrExchange msg]).
Proof.
  intros Herr Hcode Hc Hst Ht Hm Htok Hui.
  rewrite (callback_known_state e m req code t ps); try done.
  - unfold exchange. by rewrite Htok, Hui.
  - rewrite Hcode. by apply as_truthy_nonempty.
  - rewrite Hst. apply as_truthy_nonempty. congruence.
Qed.

Lemma callback_userinfo_failure_witness :
  callback_handler half_env sample_cache
    (request_of [("code", QStr "4/abc"); ("state", QStr "T")] no_body) =
  (delete "T" sample_cache,
   RJson 500 (JObj [("error", JStr "Failed to exchange authorization code")]),
   [ErrExchange "Request failed with status code 503"]).
Proof.
  apply (callback_userinfo_failure half_env sample_cache
    (request_of [("code", QStr "4/abc"); ("state", QStr "T")] no_body)
    (QStr "4/abc") "T" sample_record
    (mkTokens (Some (JStr "at")) (Some (JStr "rt")) None)
    "Request failed with status code 503");
    try (vm_compute; reflexivity); discriminate.
Defined.

(** ** The success paths of the callback *)

Lemma format_other {A} (q : option qval) (a b : A) :
  q <> Some (QStr "json") ->
  match q with Some (QStr "json") => a | _ => b end = b.
Proof.
  intros Hne. destruct q as [[s|l|l]|]; try reflexivity.
  do 4 (destruct s as [|[[] [] [] [] [] [] [] []] s]; try reflexivity).
  destruct s; [by destruct Hne | reflexivity].
Qed.

Lemma prefix_spec (n h : string) :
  String.prefix n h = true <-> exists post, h = n ++ post.
Proof.
  revert h. induction n as [|a n IH]; intros h.
  - split; [intros _; by exists h | by destruct h].
  - destruct h as [|b h]; [split; [done | by intros [post ?]]|].
    cbn. destruct (Ascii.ascii_dec a b) as [->|Hne].
    + rewrite IH. split; intros [post H]; exists post.
      * by rewrite H.
      * by injection H.
    + split; [done|]. intros [post H]. injection H as ? ?. done.
Qed.

Lemma str_includes_unfold (n h : string) :
  str_includes n h =
    String.prefix n h ||
    match h with EmptyString => false | String _ rest => str_includes n rest end.
Proof. by destruct h. Qed.

(** [str_includes] is the substring test. *)
Lemma str_includes_spec (n h : string) :
  str_includes n h = true <-> exists pre post, h = pre ++ n ++ post.
Proof.
  split.
  - induction h as [|c h IH]; rewrite str_includes_unfold.
    + rewrite orb_false_r. intros [post H]%prefix_spec. by exists "", post.
    + intros [[post H]%prefix_spec | H]%orb_true_iff; [by exists "", post|].
      destruct (IH H) as (pre & post & ->). by exists (String c pre), post.
  - intros (pre & post & ->). induction pre as [|c pre IH].
    + rewrite str_includes_unfold. apply orb_true_iff. left.
      apply prefix_spec. by exists post.
    + rewrite str_includes_unfold. apply orb_true_iff. by right.
Qed.

Lemma exchange_json e req code ps tokens ui :
  getToken e code = Ok tokens -> userinfo_get e tokens = Ok ui ->
  query req !! "format" = Some (QStr "json") ->
  exchange e req code ps =
    (RJson 200 (obj
       [("success", Some (JBool true));
        ("user", Some (obj [("email", email ui); ("name", name ui);
                            ("picture", picture ui)]));
        ("tokens", Some (obj [("access_token", access_token tokens);
                              ("refresh_token", refresh_token tokens);
                              ("expiry_date", expiry_date tokens)]))]),
     [LogSuccess (email ui) (jtruthy (refresh_token tokens))]).
Proof. intros Htok Hui Hf. unfold exchange. by rewrite Htok, Hui, Hf. Qed.

Lemma exchange_redirect_branch e req code ps tokens ui :
  getToken e code = Ok tokens -> userinfo_get e tokens = Ok ui ->
  query req !! "format" <> Some (QStr "json") ->
  exchange e req code ps =
    let ok := LogSuccess (email ui) (jtruthy (refresh_token tokens)) in
    let failed msg :=
      (RJson 500 (error_body "Failed to exchange authorization code"),
       [ok; ErrExchange msg]) in
    match includes_qmark (or_slash (returnUrl ps)) with
    | Throw msg => failed msg
    | Ok q =>
        match toString (or_slash (returnUrl ps)) with
        | Throw msg => failed msg
        | Ok base =>
            match encodeURIComponent e (email ui) with
            | Throw msg => failed msg
            | Ok mail =>
                (RRedirect 302
                   (base ++ (if q then "&" else "?") ++ "auth=success&email=" ++ mail),
                 [ok])
            end
        end
    end.
Proof.
  intros Htok Hui Hf. unfold exchange. rewrite Htok, Hui.
  rewrite format_other by done. simpl.
  destruct (includes_qmark _); [|done].
  destruct (toString _); [|done].
  by destruct (encodeURIComponent e (email ui)).
Qed.

(** X9: once the code is exchanged and the profile fetched, the answer is
    the 200 JSON document exactly when [format] is the string "json"
    (compared with [===]: another spelling or a repeated parameter does not
    count).  That document carries the user's profile and the tokens,
    refresh token included, and is the same whatever record was pending. *)
Theorem callback_json_format (e : Env) (req : Request) (code : qval)
    (ps : PendingState) (tokens : Tokens) (ui : UserInfo) :
  getToken e code = Ok tokens -> userinfo_get e tokens = Ok ui ->
  (query req !! "format" = Some (QStr "json") ->
     forall ps',
     exchange e req code ps' =
       (RJson 200 (obj
          [("success", Some (JBool true));
           ("user", Some (obj [("email", email ui); ("name", name ui);
                               ("picture", picture ui)]));
           ("tokens", Some (obj [("access_token", access_token tokens);
                                 ("refresh_token", refresh_token tokens);
                                 ("expiry_date", expiry_date tokens)]))]),
        [LogSuccess (email ui) (jtruthy (refresh_token tokens))])) /\
  (query req !! "format" <> Some (QStr "json") ->
     exists s, status_of (exchange e req code ps).1 = Some s /\ s <> 200).
Proof.
  intros Htok Hui. split.
  - intros Hf ps'. by apply exchange_json.
  - intros Hf. rewrite (exchange_redirect_branch e req code ps tokens ui) by done.
    simpl. destruct (includes_qmark _); [|by exists 500].
    destruct (toString _); [|by exists 500].
    destruct (encodeURIComponent e (email ui)); [by exists 302 | by exists 500].
Qed.

Lemma callback_json_format_witness :
  (exchange accepting_env
     (request_of [("code", QStr "4/abc"); ("state", QStr "T"); ("format", QStr "json")]
        no_body)
     (QStr "4/abc") sample_record).1 =
    RJson 200 (JObj
      [("success", JBool true);
       ("user", JObj [("email", JStr "user@example.com")]);
       ("tokens", JObj [("access_token", JStr "at"); ("refresh_token", JStr "rt")])]) /\
  (exists s, status_of (exchange accepting_env
     (request_of [("code", QStr "4/abc"); ("state", QStr "T"); ("format", QStr "JSON")]
        no_body)
     (QStr "4/abc") sample_record).1 = Some s /\ s <> 200).
Proof.
  split.
  - rewrite (proj1 (callback_json_format accepting_env
      (request_of [("code", QStr "4/abc"); ("state", QStr "T");
                   ("format", QStr "json")] no_body)
      (QStr "4/abc") sample_record
      (mkTokens (Some (JStr "at")) (Some (JStr "rt")) None)
      (mkUserInfo (Some (JStr "user@example.com")) None None)
      eq_refl eq_refl) eq_refl sample_record).
    reflexivity.
  - apply (proj2 (callback_json_format accepting_env
      (request_of [("code", QStr "4/abc"); ("state", QStr "T");
                   ("format", QStr "JSON")] no_body)
      (QStr "4/abc") sample_record
      (mkTokens (Some (JStr "at")) (Some (JStr "rt")) None)
      (mkUserInfo (Some (JStr "user@example.com")) None None)
      eq_refl eq_refl)).
    vm_compute. discriminate.
Defined.

(** X10: on the redirect path with a string return URL [u], the browser is
    sent to [u], then "&" if [u] already contains a question mark anywhere
    and "?" if it contains none, then [auth=success&email=] and the encoded
    address. *)
Theorem callback_redirect_separator (e : Env) (req : Request) (code : qval)
    (ps : PendingState) (tokens : Tokens) (ui : UserInfo) (u mail : string) :
  getToken e code = Ok tokens -> userinfo_get e tokens = Ok ui ->
  query req !! "format" <> Some (QStr "json") ->
  returnUrl ps = QStr u -> u <> "" ->
  encodeURIComponent e (email ui) = Ok mail ->
  ((exists pre post, u = pre ++ "?" ++ post) ->
     (exchange e req code ps).1 =
       RRedirect 302 (u ++ "&" ++ "auth=success&email=" ++ mail)) /\
  (~ (exists pre post, u = pre ++ "?" ++ post) ->
     (exchange e req code ps).1 =
       RRedirect 302 (u ++ "?" ++ "auth=success&email=" ++ mail)).
Proof.
  intros Htok Hui Hf Hu Hne Hmail.
  rewrite (exchange_redirect_branch e req code ps tokens ui) by done.
  rewrite Hu. unfold or_slash.
  assert (truthy (Some (QStr u)) = true) as -> by (apply truthy_Some_iff; congruence).
  simpl. rewrite Hmail. simpl.
  destruct (str_includes "?" u) eqn:E.
  - split; [done|]. intros Hno. destruct Hno. by apply str_includes_spec.
  - split; [|done]. intros Hyes%str_includes_spec. congruence.
Qed.

Lemma callback_redirect_separator_witness :
  (exchange accepting_env
     (request_of [("code", QStr "4/abc"); ("state", QStr "B")] no_body)
     (QStr "4/abc") (mkPending 500000 (QStr "/b?x=1") "5.6.7.8")).1 =
  RRedirect 302 "/b?x=1&auth=success&email=user%40example.com".
Proof.
  apply (proj1 (callback_redirect_separator accepting_env
    (request_of [("code", QStr "4/abc"); ("state", QStr "B")] no_body)
    (QStr "4/abc") (mkPending 500000 (QStr "/b?x=1") "5.6.7.8")
    (mkTokens (Some (JStr "at")) (Some (JStr "rt")) None)
    (mkUserInfo (Some (JStr "user@example.com")) None None)
    "/b?x=1" "user%40example.com" eq_refl eq_refl
    ltac:(vm_compute; discriminate) eq_refl ltac:(discriminate) eq_refl)).
  exists "/b", "x=1". reflexivity.
Defined.

(** X11: a return URL that arrived as an object (bracket syntax in the
    query of the auth request) has no [includes] method: on the redirect
    path the callback then ends in the catch block and answers 500, although
    Google accepted the code and the profile was fetched. *)
Theorem callback_object_return_url (e : Env) (req : Request) (code : qval)
    (ps : PendingState) (tokens : Tokens) (ui : UserInfo)
    (props : list (string * qval)) :
  getToken e code = Ok tokens -> userinfo_get e tokens = Ok ui ->
  query req !! "format" <> Some (QStr "json") ->
  returnUrl ps = QObj props ->
  (exchange e req code ps).1 =
    RJson 500 (JObj [("error", JStr "Failed to exchange authorization code")]) /\
  exists msg, (exchange e req code ps).2 =
    [LogSuccess (email ui) (jtruthy (refresh_token tokens)); ErrExchange msg].
Proof.
  intros Htok Hui Hf Hu.
  rewrite (exchange_redirect_branch e req code ps tokens ui) by done.
  rewrite Hu. simpl. split; [done|]. by eexists.
Qed.

Lemma callback_object_return_url_witness :
  (exchange accepting_env
     (request_of [("code", QStr "4/abc"); ("state", QStr "T")] no_body)
     (QStr "4/abc") (mkPending 0 (QObj [("a", QStr "b")]) "1.2.3.4")).1 =
  RJson 500 (JObj [("error", JStr "Failed to exchange authorization code")]).
Proof.
  apply (proj1 (callback_object_return_url accepting_env
    (request_of [("code", QStr "4/abc"); ("state", QStr "T")] no_body)
    (QStr "4/abc") (mkPending 0 (QObj [("a", QStr "b")]) "1.2.3.4")
    (mkTokens (Some (JStr "at")) (Some (JStr "rt")) None)
    (mkUserInfo (Some (JStr "user@example.com")) None None)
    [("a", QStr "b")] eq_refl eq_refl ltac:(vm_compute; discriminate) eq_refl)).
Defined.

(** X12: an [error] parameter repeated in the query arrives as an array,
    which is truthy even when its strings are empty; the callback answers 400
    with the strings joined by commas after "Google OAuth error: " and leaves
    the Map alone. *)
Theorem callback_repeated_error (e : Env) (m : Cache) (req : Request)
    (errs : list string) :
  query req !! "error" = Some (QArr (QStr <$> errs)) ->
  callback_handler e m req =
    (m,
     RJson 400 (JObj [("error", JStr ("Google OAuth error: " ++ String.concat "," errs))]),
     [ErrOAuth (QArr (QStr <$> errs))]).
Proof.
  intros Herr. rewrite (callback_provider_error e m req (QArr (QStr <$> errs))).
  - by rewrite toString_strings.
  - by rewrite Herr.
Qed.

Lemma callback_repeated_error_witness :
  callback_handler accepting_env sample_cache
    (request_of [("error", QArr [QStr ""; QStr ""]); ("code", QStr "4/abc");
                 ("state", QStr "T")] no_body) =
  (sample_cache, RJson 400 (JObj [("error", JStr "Google OAuth error: ,")]),
   [ErrOAuth (QArr [QStr ""; QStr ""])]).
Proof.
  apply (callback_repeated_error accepting_env sample_cache
    (request_of [("error", QArr [QStr ""; QStr ""]); ("code", QStr "4/abc");
                 ("state", QStr "T")] no_body) [""; ""]).
  vm_compute. reflexivity.
Defined.

(** ** The auth handler beyond the claims *)

Lemma pick_return_url_truthy e req : truthy (Some (pick_return_url e req)) = true.
Proof.
  assert (truthy (Some (default_return_url e)) = true) as Hd.
  { unfold default_return_url. destruct (DEFAULT_RETURN_URL e) as [s|]; [|done].
    destruct (String.eqb s "") eqn:E; [done|]. simpl. by rewrite E. }
  unfold pick_return_url. destruct (query req !! "return_url") as [v|]; [|done].
  by destruct (truthy (Some v)) eqn:E.
Qed.

Lemma auth_cache e m req :
  (auth_handler e m req).1.1 = <[uuidv4 e := record_of e req]> m.
Proof. reflexivity. Qed.

(** X13: the return URL given to the auth request, whatever non-empty string
    it is, is where the matching successful callback sends the browser: the
    redirect target is that string followed by "&" or "?" and the success
    marker.  Nothing on the way restricts it to a known site. *)
Theorem return_url_round_trip (e0 e1 : Env) (m : Cache) (req0 req : Request)
    (code : qval) (u mail : string) (tokens : Tokens) (ui : UserInfo) :
  query req0 !! "return_url" = Some (QStr u) -> u <> "" ->
  uuidv4 e0 <> "" ->
  as_truthy (query req !! "error") = None ->
  query req !! "code" = Some code -> code <> QStr "" ->
  query req !! "state" = Some (QStr (uuidv4 e0)) ->
  query req !! "format" <> Some (QStr "json") ->
  getToken e1 code = Ok tokens -> userinfo_get e1 tokens = Ok ui ->
  encodeURIComponent e1 (email ui) = Ok mail ->
  exists sep, (sep = "&" \/ sep = "?") /\
    (callback_handler e1 (auth_handler e0 m req0).1.1 req).1.2 =
      RRedirect 302 (u ++ sep ++ "auth=success&email=" ++ mail).
Proof.
  intros Hu Hne Ht Herr Hcode Hc Hst Hf Htok Hui Hmail.
  rewrite auth_cache.
  rewrite (callback_known_state e1 _ req code (uuidv4 e0) (record_of e0 req0));
    try done.
  - simpl. rewrite (exchange_redirect_branch e1 req code _ tokens ui) by done.
    assert (returnUrl (record_of e0 req0) = QStr u) as ->.
    { simpl. unfold pick_return_url. rewrite Hu.
      by assert (truthy (Some (QStr u)) = true) as ->
        by (apply truthy_Some_iff; congruence). }
    unfold or_slash.
    assert (truthy (Some (QStr u)) = true) as -> by (apply truthy_Some_iff; congruence).
    simpl. rewrite Hmail.
    destruct (str_includes "?" u); eexists; (split; [|reflexivity]); auto.
  - rewrite Hcode. by apply as_truthy_nonempty.
  - rewrite Hst. apply as_truthy_nonempty. congruence.
  - apply lookup_insert_eq.
Qed.

Lemma return_url_round_trip_witness :
  exists sep, (sep = "&" \/ sep = "?") /\
    (callback_handler accepting_env
       (auth_handler rejecting_env ∅
          (request_of [("return_url", QStr "https://evil.example/")] no_body)).1.1
       (request_of [("code", QStr "4/abc"); ("state", QStr "T2")] no_body)).1.2 =
    RRedirect 302
      ("https://evil.example/" ++ sep ++ "auth=success&email=" ++ "user%40example.com").
Proof.
  apply (return_url_round_trip rejecting_env accepting_env ∅
    (request_of [("return_url", QStr "https://evil.example/")] no_body)
    (request_of [("code", QStr "4/abc"); ("state", QStr "T2")] no_body)
    (QStr "4/abc") "https://evil.example/" "user%40example.com"
    (mkTokens (Some (JStr "at")) (Some (JStr "rt")) None)
    (mkUserInfo (Some (JStr "user@example.com")) None None));
    try (vm_compute; reflexivity); first [discriminate | vm_compute; discriminate].
Defined.

(** X14: the auth handler does not look whether the generated token is
    already a key.  If it is, the older record is overwritten: the Map keeps
    its size, the token now leads to the new request's record, and the older
    flow's return URL and address can no longer be retrieved. *)
Theorem auth_overwrites_on_collision (e : Env) (m : Cache) (req : Request)
    (old : PendingState) :
  m !! uuidv4 e = Some old ->
  let m' := (auth_handler e m req).1.1 in
  size m' = size m /\
  consume (QStr (uuidv4 e)) m' = (Some (record_of e req), delete (uuidv4 e) m) /\
  (forall k, k <> uuidv4 e -> m' !! k = m !! k).
Proof.
  intros Hold. simpl. split; [|split].
  - by apply map_size_insert_Some.
  - rewrite (consume_present _ _ (record_of e req)) by apply lookup_insert_eq.
    by rewrite delete_insert_eq.
  - intros k Hk. by rewrite lookup_insert_ne.
Qed.

Lemma auth_overwrites_on_collision_witness :
  size (auth_handler (set_clock 5 (mkEnv 0 "T" None sample_opts_url
          (getToken accepting_env) (userinfo_get accepting_env)
          (refreshAccessToken accepting_env) (encodeURIComponent accepting_env)))
        sample_cache (request_of [] no_body)).1.1 = size sample_cache.
Proof.
  refine (proj1 (auth_overwrites_on_collision _ sample_cache
    (request_of [] no_body) sample_record _)).
  vm_compute. reflexivity.
Defined.

(** ** Invariants of the Map along any history *)

Lemma callback_cache_subseteq e (m : Cache) req :
  (callback_handler e m req).1.1 ⊆ m.
Proof. apply map_subseteq_spec. intros k r. apply callback_cache_sub. Qed.

Lemma step_keeps (m : Cache) (ev : Event) (k : string) (r : PendingState) :
  step m ev !! k = Some r ->
  m !! k = Some r \/
  exists e req, ev = EvAuth e req /\ k = uuidv4 e /\ r = record_of e req.
Proof.
  destruct ev as [e req|e req|e req|now]; simpl.
  - intros [[<- <-]|[_ H]]%lookup_insert_Some; [right|by left].
    by exists e, req.
  - intros H%callback_cache_sub. by left.
  - rewrite refresh_cache. by left.
  - intros [H _]%sweep_survivor. by left.
Qed.

(** Every record of a reachable Map was written by an auth request of the
    history, under the token that request drew. *)
Lemma run_provenance evs k r :
  run evs !! k = Some r ->
  exists e req, EvAuth e req ∈ evs /\ k = uuidv4 e /\ r = record_of e req.
Proof.
  revert k r. induction evs as [|ev evs IH] using rev_ind; intros k r Hk.
  - unfold run in Hk. simpl in Hk. by rewrite lookup_empty in Hk.
  - rewrite run_snoc in Hk. apply step_keeps in Hk as [Hk|(e & req & -> & -> & ->)].
    + destruct (IH _ _ Hk) as (e & req & Hin & -> & ->).
      exists e, req. split; [|done]. apply elem_of_app. by left.
    + exists e, req. split; [|done]. apply elem_of_app. right. by left.
Qed.

(** X15: along any history, the callback gets past the state check (answers
    something other than 400) only for a [state] that an auth request of
    that history drew from the generator and whose record is still pending;
    the record is then the one that auth request wrote, and it is removed. *)
Theorem callback_accepts_only_issued_state (evs : list Event) (e : Env)
    (req : Request) (s : Z) :
  status_of (callback_handler e (run evs) req).1.2 = Some s -> s <> 400 ->
  exists e0 req0,
    EvAuth e0 req0 ∈ evs /\
    query req !! "state" = Some (QStr (uuidv4 e0)) /\
    run evs !! uuidv4 e0 = Some (record_of e0 req0) /\
    (callback_handler e (run evs) req).1.1 = delete (uuidv4 e0) (run evs).
Proof.
  unfold callback_handler.
  destruct (as_truthy (query req !! "error")) as [err|].
  { simpl. destruct (toString err); simpl; [|done]. by intros [= <-]. }
  destruct (as_truthy (query req !! "code")) as [code|];
    [|by intros [= <-]].
  destruct (as_truthy (query req !! "state")) as [st|] eqn:Est;
    [|by intros [= <-]].
  apply as_truthy_Some in Est as [Est _].
  unfold consume. destruct (Map_get st (run evs)) as [ps|] eqn:Hget;
    [|by intros [= <-]].
  destruct st as [t|l|l]; try done. simpl in Hget.
  destruct (run_provenance _ _ _ Hget) as (e0 & req0 & Hin & -> & ->).
  intros _ _. exists e0, req0. repeat split; try done.
  by destruct (exchange e req code (record_of e0 req0)).
Qed.

Lemma callback_accepts_only_issued_state_witness :
  exists e0 req0,
    EvAuth e0 req0 ∈ [EvAuth accepting_env (request_of [] no_body)] /\
    query (request_of [("code", QStr "4/abc"); ("state", QStr "T1")] no_body)
      !! "state" = Some (QStr (uuidv4 e0)) /\
    run [EvAuth accepting_env (request_of [] no_body)] !! uuidv4 e0 =
      Some (record_of e0 req0) /\
    (callback_handler accepting_env (run [EvAuth accepting_env (request_of [] no_body)])
       (request_of [("code", QStr "4/abc"); ("state", QStr "T1")] no_body)).1.1 =
      delete (uuidv4 e0) (run [EvAuth accepting_env (request_of [] no_body)]).
Proof.
  apply (callback_accepts_only_issued_state
    [EvAuth accepting_env (request_of [] no_body)] accepting_env
    (request_of [("code", QStr "4/abc"); ("state", QStr "T1")] no_body) 302).
  - vm_compute. reflexivity.
  - discriminate.
Defined.

(** X16: every record of a reachable Map holds a truthy return URL (the auth
    handler falls back to the configured default, and to "/"), so the
    second fallback [pendingState.returnUrl || '/'] in the callback never
    changes anything. *)
Theorem stored_return_url_truthy (evs : list Event) (k : string) (r : PendingState) :
  run evs !! k = Some r ->
  returnUrl r <> QStr "" /\ or_slash (returnUrl r) = returnUrl r.
Proof.
  intros (e & req & _ & _ & ->)%run_provenance. simpl.
  pose proof (pick_return_url_truthy e req) as H. split.
  - by apply truthy_Some_iff.
  - unfold or_slash. by rewrite H.
Qed.

Lemma stored_return_url_truthy_witness :
  or_slash (QStr "/") = QStr "/".
Proof.
  refine (proj2 (stored_return_url_truthy
    [EvAuth accepting_env (request_of [("return_url", QStr "")] no_body)]
    "T1" (mkPending 1000 (QStr "/") "1.2.3.4") _)).
  vm_compute. reflexivity.
Defined.





(** X18: the Map never holds more records than auth requests were served:
    only the auth handler adds a key, and only one per request. *)
Theorem live_records_bounded (evs : list Event) :
  (size (run evs) <= length (issued evs))%nat.
Proof.
  induction evs as [|ev evs IH] using rev_ind; [done|].
  rewrite run_snoc. unfold issued. rewrite omap_app, length_app.
  fold (issued evs).
  destruct ev as [e req|e req|e req|now]; simpl.
  - rewrite map_size_insert. destruct (run evs !! uuidv4 e); simpl; lia.
  - pose proof (map_subseteq_size _ _ (callback_cache_subseteq e (run evs) req)). lia.
  - rewrite refresh_cache. lia.
  - pose proof (map_subseteq_size _ _ (sweep_subseteq now (run evs))). lia.
Qed.




(** ** The refresh handler beyond the claims *)

(** X20: a [refresh_token] that is present but falsy (null, false, the
    empty string, zero, negative zero) and a body that is a JSON array are
    treated like a missing token: 400 "Missing refresh_token", and Google is
    not asked, since the outcome is the same in every world. *)
Theorem refresh_falsy_token (e : Env) (m : Cache) (req : Request) :
  (exists items, body req = BArray items) \/
  (exists v, body_prop "refresh_token" (body req) = Some v /\
     (v = JNull \/ v = JBool false \/ v = JStr "" \/
      v = JNum 0%float \/ v = JNum (-0)%float)) ->
  refresh_handler e m req =
    (m, RJson 400 (JObj [("error", JStr "Missing refresh_token")]), []).
Proof.
  intros [[items Hb] | (v & Hv & Hfalsy)].
  - rewrite refresh_parsed by (rewrite Hb; discriminate). by rewrite Hb.
  - rewrite refresh_parsed by (by apply body_prop_parsed in Hv). rewrite Hv.
    by destruct Hfalsy as [->|[->|[->|[->| ->]]]].
Qed.

Lemma refresh_falsy_token_witness :
  refresh_handler accepting_env sample_cache
    (request_of [] (BObject [("refresh_token", JNum 0%float)])) =
  (sample_cache, RJson 400 (JObj [("error", JStr "Missing refresh_token")]), []).
Proof.
  apply (refresh_falsy_token accepting_env sample_cache
    (request_of [] (BObject [("refresh_token", JNum 0%float)]))).
  right. exists (JNum 0%float). split; [reflexivity|]. auto.
Defined.

(** X21: the refresh handler never touches the Map.  On a parsed body it
    answers with one of three shapes only: 400 "Missing refresh_token", 401
    "Failed to refresh token", or 200 with the access token and expiry that
    Google returned; the refresh token itself and Google's error text are
    never echoed.  On an undefined body line 169 throws and the handler
    sends nothing; that is the only way in which it does not answer. *)
Theorem refresh_response_shapes (e : Env) (m : Cache) (req : Request) :
  let r := (refresh_handler e m req).1.2 in
  (refresh_handler e m req).1.1 = m /\
  (r = RJson 400 (JObj [("error", JStr "Missing refresh_token")]) \/
   r = RJson 401 (JObj [("error", JStr "Failed to refresh token")]) \/
   (exists tok c,
      body_prop "refresh_token" (body req) = Some tok /\
      refreshAccessToken e tok = Ok c /\
      r = RJson 200 (obj [("access_token", cred_access_token c);
                          ("expiry_date", cred_expiry_date c)])) \/
   (body req = BUndefined /\ exists msg, r = RUncaught msg)) /\
  (body req <> BUndefined -> exists s, status_of r = Some s) /\
  (body req = BUndefined -> status_of r = None).
Proof.
  simpl. split; [apply refresh_cache|].
  assert (body req = BUndefined \/ body req <> BUndefined) as [Hb|Hb]
    by (destruct (body req); auto; right; discriminate).
  - destruct (refresh_undefined e m req Hb) as [msg Hrun]. rewrite Hrun. simpl.
    split; [|split; [done|done]]. do 3 right. split; [done|]. by eexists.
  - rewrite refresh_parsed by done.
    destruct (body_prop "refresh_token" (body req)) as [tok|];
      [|split; [by left | split; [by eexists | done]]].
    destruct (jtruthy (Some tok));
      [|split; [by left | split; [by eexists | done]]].
    destruct (refreshAccessToken e tok) as [c|msg] eqn:E;
      [|split; [by right; left | split; [by eexists | done]]].
    split; [|split; [by eexists | done]].
    right; right; left. by exists tok, c.
Qed.
